(** * Document upload and processing service: model and properties

    A shallow embedding of the upload API (src/apps/upload-api/src) and of
    the processing worker (src/apps/workers/src/worker.py).

    The request handlers are Python coroutines that read and write three
    pieces of process-external state (the [uploads] table, the object
    store, the log) and that raise exceptions.  They are modelled in a
    state-and-exception monad over a record [world] that holds exactly
    that state. *)

From Stdlib Require Import ZArith DecimalString.
From stdpp Require Import base option list sorting strings gmap.

Local Open Scope Z_scope.
Local Open Scope string_scope.
Set Warnings "-register-all".

(** ** Python values used by the handlers *)

(** [f"{n}"] for an [int]. *)
Definition str_int (n : Z) : string := NilZero.string_of_int (Z.to_int n).

(** [len(s)] as a Python [int]. *)
Definition len_str (s : string) : Z := Z.of_nat (String.length s).

(** A [datetime]; only its order matters here (microseconds since the
    epoch). *)
Definition datetime := Z.

(** The text [d.isoformat()], kept symbolic: the handlers only pass it on. *)
Record isoformat := IsoFormat { iso_datetime : datetime }.

(** The exceptions that occur in the service. *)
Inductive exn :=
| RuntimeError (msg : string)
| TypeError (msg : string)
| PostgresError (msg : string)
| HTTPException (status_code : Z) (detail : string).

(** [str(e)]; Starlette prints an [HTTPException] as [status: detail]. *)
Definition str_exn (e : exn) : string :=
  match e with
  | RuntimeError msg | TypeError msg | PostgresError msg => msg
  | HTTPException c d => str_int c +:+ ": " +:+ d
  end.

(** ** config.py *)

Record Settings := {
  minio_endpoint : string;
  minio_bucket : string;
  minio_secure : bool;
  max_upload_size : Z;
  chunk_size : Z;
  embedding_model : string;
  embedding_dimensions : Z
}.

(** The defaults of [class Settings]. *)
Definition default_settings : Settings := {|
  minio_endpoint := "supabase-minio:9000";
  minio_bucket := "document-uploads";
  minio_secure := false;
  max_upload_size := 10737418240;
  chunk_size := 104857600;
  embedding_model := "text-embedding-3-small";
  embedding_dimensions := 1536
|}.

(** ** The state the service runs against *)

(** One row of the [uploads] table, with the columns the queries name. *)
Record upload_row := {
  row_id : string;
  row_filename : string;
  row_file_size : Z;
  row_content_type : option string;
  row_minio_bucket : string;
  row_minio_key : string;
  row_upload_status : string;
  row_processing_status : option string;
  row_created_at : option datetime;
  row_completed_at : option datetime;
  row_metadata : option string
}.

(** An object held by the object store. *)
Record stored_object := {
  obj_data : list Byte.byte;
  obj_length : Z;
  obj_content_type : option string
}.

(** A FastAPI [UploadFile]. *)
Record UploadFile := {
  file_filename : string;
  file_content_type : option string;
  file_file : list Byte.byte
}.

Inductive log_level := INFO | ERROR.

Record world := {
  settings : Settings;
  (** the global [_pool] of database.py: is it set? *)
  pool : bool;
  (** the global [minio_client] of minio_client.py: is it set? *)
  minio_client : bool;
  (** the [uploads] table, in insertion order *)
  uploads : list upload_row;
  (** database time, the value [created_at] takes on insert *)
  db_now : datetime;
  (** the object store, keyed by bucket and object name *)
  objects : gmap (string * string) stored_object;
  (** [uuid.uuid4()]: the identifiers still to be drawn *)
  uuid_source : nat -> string;
  uuid_drawn : nat;
  (** the log, oldest entry first *)
  log : list (log_level * string)
}.

(** What the service persists: the table and the object store. *)
Definition persisted (w : world) : list upload_row * gmap (string * string) stored_object :=
  (uploads w, objects w).

Definition set_uploads (t : list upload_row) (w : world) : world :=
  {| settings := settings w; pool := pool w; minio_client := minio_client w;
     uploads := t; db_now := db_now w; objects := objects w;
     uuid_source := uuid_source w; uuid_drawn := uuid_drawn w; log := log w |}.

Definition set_objects (o : gmap (string * string) stored_object) (w : world) : world :=
  {| settings := settings w; pool := pool w; minio_client := minio_client w;
     uploads := uploads w; db_now := db_now w; objects := o;
     uuid_source := uuid_source w; uuid_drawn := uuid_drawn w; log := log w |}.

Definition set_uuid_drawn (n : nat) (w : world) : world :=
  {| settings := settings w; pool := pool w; minio_client := minio_client w;
     uploads := uploads w; db_now := db_now w; objects := objects w;
     uuid_source := uuid_source w; uuid_drawn := n; log := log w |}.

Definition set_log (l : list (log_level * string)) (w : world) : world :=
  {| settings := settings w; pool := pool w; minio_client := minio_client w;
     uploads := uploads w; db_now := db_now w; objects := objects w;
     uuid_source := uuid_source w; uuid_drawn := uuid_drawn w; log := l |}.

(** ** The monad of the handlers *)

Inductive outcome (A : Type) :=
| Returned (a : A)
| Raised (e : exn).
Arguments Returned {A} a.
Arguments Raised {A} e.

Definition M (A : Type) : Type := world -> outcome A * world.

Definition ret {A} (a : A) : M A := fun w => (Returned a, w).
Definition raise {A} (e : exn) : M A := fun w => (Raised e, w).

Definition bind {A B} (m : M A) (k : A -> M B) : M B :=
  fun w => match m w with
           | (Returned a, w') => k a w'
           | (Raised e, w') => (Raised e, w')
           end.

(** [try: m  except Exception as e: h e] *)
Definition try_except {A} (m : M A) (h : exn -> M A) : M A :=
  fun w => match m w with
           | (Returned a, w') => (Returned a, w')
           | (Raised e, w') => h e w'
           end.

Declare Scope py_scope.
Delimit Scope py_scope with py.
Notation "'let!' x ':=' m 'in' k" := (bind m (fun x => k))
  (at level 10, x name, m at level 100, k at level 200) : py_scope.
Notation "'do!' m 'in' k" := (bind m (fun _ => k))
  (at level 10, m at level 100, k at level 200) : py_scope.
Local Open Scope py_scope.

Definition gets {A} (f : world -> A) : M A := fun w => (Returned (f w), w).
Definition modify (f : world -> world) : M unit := fun w => (Returned tt, f w).

Definition result_of {A} (r : outcome A * world) : outcome A := fst r.
Definition world_of {A} (r : outcome A * world) : world := snd r.

Definition logger_info (msg : string) : M unit :=
  modify (fun w => set_log (log w ++ [(INFO, msg)]) w).
Definition logger_error (msg : string) : M unit :=
  modify (fun w => set_log (log w ++ [(ERROR, msg)]) w).

(** [str(uuid.uuid4())] *)
Definition uuid4 : M string :=
  fun w => (Returned (uuid_source w (uuid_drawn w)), set_uuid_drawn (S (uuid_drawn w)) w).

(** ** JSON values: the dictionaries the handlers return *)

Inductive json :=
| JNull
| JStr (s : string)
| JInt (n : Z)
| JIso (d : isoformat)
| JList (l : list json)
| JObj (fields : list (string * json)).

(** [d[k]] for a returned dictionary. *)
Fixpoint assoc (k : string) (fields : list (string * json)) : option json :=
  match fields with
  | [] => None
  | (k', v) :: rest => if String.eqb k k' then Some v else assoc k rest
  end.

Definition field (k : string) (j : json) : option json :=
  match j with
  | JObj fields => assoc k fields
  | _ => None
  end.

Definition JOptStr (o : option string) : json :=
  match o with Some s => JStr s | None => JNull end.

(** [d.isoformat() if d else None] *)
Definition JOptIso (o : option datetime) : json :=
  match o with Some d => JIso (IsoFormat d) | None => JNull end.

(** ** services/minio_client.py *)

Inductive Minio := MinioClient.

(** [get_client()] *)
Definition get_client : M Minio :=
  let! c := gets minio_client in
  if negb c then raise (RuntimeError "MinIO client not initialized")
  else ret MinioClient.

(** [minio.put_object(bucket_name, object_name, data, length, content_type)]:
    the object store is taken as the reliable capability it is assumed to
    be; a put replaces whatever the key held. *)
Definition put_object (_ : Minio) (bucket_name object_name : string)
    (data : list Byte.byte) (length : Z) (content_type : option string) : M unit :=
  modify (fun w =>
    set_objects (<[(bucket_name, object_name) :=
                     {| obj_data := data; obj_length := length;
                        obj_content_type := content_type |}]> (objects w)) w).

(** ** services/database.py *)

(** The three statements the handlers send. *)
Inductive sql :=
| INSERT_INTO_uploads
    (* INSERT INTO uploads (id, filename, file_size, content_type,
                            minio_bucket, minio_key, upload_status)
       VALUES ($1, $2, $3, $4, $5, $6, $7) RETURNING id, created_at *)
| SELECT_uploads_WHERE_id
    (* SELECT id, filename, file_size, content_type, upload_status,
              processing_status, created_at, completed_at, metadata
       FROM uploads WHERE id = $1 *)
| SELECT_uploads_ORDER_BY_created_at_DESC
    (* SELECT id, filename, file_size, upload_status, processing_status,
              created_at
       FROM uploads ORDER BY created_at DESC LIMIT $1 OFFSET $2 *).

Inductive sqlarg :=
| Text (s : string)
| Int (n : Z)
| Null.

Definition OptText (o : option string) : sqlarg :=
  match o with Some s => Text s | None => Null end.

(** [ORDER BY created_at DESC]: PostgreSQL puts NULLs first in descending
    order; rows of equal time keep their table order here. *)
Definition newer_eq (a b : upload_row) : bool :=
  match row_created_at a, row_created_at b with
  | None, _ => true
  | Some _, None => false
  | Some x, Some y => (y <=? x)%Z
  end.

Fixpoint insert_newest (r : upload_row) (sorted : list upload_row) : list upload_row :=
  match sorted with
  | [] => [r]
  | s :: rest => if newer_eq r s then r :: s :: rest else s :: insert_newest r rest
  end.

Definition order_by_created_at_desc (t : list upload_row) : list upload_row :=
  foldr insert_newest [] t.

Definition bigint (n : Z) : bool := ((- 2 ^ 63 <=? n) && (n <? 2 ^ 63))%Z.

(** An asyncpg connection.  [fetch] returns all result rows, [fetchrow] the
    first one or [None].  The schema of [uploads] is not part of the
    sources: a column an INSERT leaves out is NULL, except [created_at],
    which takes the database time. *)
Inductive Connection := Conn.

Definition conn_fetch (_ : Connection) (query : sql) (args : list sqlarg)
  : M (list upload_row) :=
  match query, args with
  | INSERT_INTO_uploads,
    [Text id; Text fname; Int size; ctype; Text bucket; Text key; Text status] =>
      let ct := match ctype with Text s => Some s | _ => None end in
      let! now := gets db_now in
      let row := {| row_id := id; row_filename := fname; row_file_size := size;
                    row_content_type := ct; row_minio_bucket := bucket;
                    row_minio_key := key; row_upload_status := status;
                    row_processing_status := None; row_created_at := Some now;
                    row_completed_at := None; row_metadata := None |} in
      do! modify (fun w => set_uploads (uploads w ++ [row]) w) in
      ret [row]
  | SELECT_uploads_WHERE_id, [Text id] =>
      let! t := gets uploads in
      ret (filter (fun r => row_id r = id) t)
  | SELECT_uploads_ORDER_BY_created_at_DESC, [Int limit; Int offset] =>
      if negb (bigint limit && bigint offset)
      then raise (PostgresError "value out of int64 range")
      else if (limit <? 0)%Z then raise (PostgresError "LIMIT must not be negative")
      else if (offset <? 0)%Z then raise (PostgresError "OFFSET must not be negative")
      else
        let! t := gets uploads in
        ret (take (Z.to_nat limit) (drop (Z.to_nat offset) (order_by_created_at_desc t)))
  | _, _ => raise (PostgresError "invalid arguments for the statement")
  end.

Definition conn_fetchrow (c : Connection) (query : sql) (args : list sqlarg)
  : M (option upload_row) :=
  let! rows := conn_fetch c query args in
  ret (head rows).

(** The Python objects that meet [async with] in this module. *)
Inductive pyobj :=
| PoolAcquireContext                              (* what [_pool.acquire()] returns *)
| coroutine (body : world -> outcome pyobj * world).  (* a called [async def], not awaited *)

(** The body of [async def get_conn()]. *)
Definition get_conn_body : M pyobj :=
  let! p := gets pool in
  if negb p then raise (RuntimeError "Database pool not initialized")
  else ret PoolAcquireContext.

(** The call [get_conn()]: calling an [async def] runs none of its body, it
    builds a coroutine object. *)
Definition get_conn : pyobj := coroutine get_conn_body.

(** What [async with] raises when it is given a coroutine object: the class
    and wording of Python 3.11 and later (before that, an [AttributeError]
    naming [__aenter__]); either way an [Exception] to the handlers. *)
Definition not_a_context_manager : exn :=
  TypeError
    "'coroutine' object does not support the asynchronous context manager protocol".

(** [async with cm as conn: body].  The statement looks up [__aenter__] and
    [__aexit__] on the type of [cm]; a coroutine object has neither, and
    the statement raises before anything runs. *)
Definition async_with {A} (cm : pyobj) (body : Connection -> M A) : M A :=
  match cm with
  | PoolAcquireContext => body Conn
  | coroutine _ => raise not_a_context_manager
  end.

Definition execute_query (query : sql) (args : list sqlarg) : M (list upload_row) :=
  async_with get_conn (fun conn => conn_fetch conn query args).

Definition execute_one (query : sql) (args : list sqlarg) : M (option upload_row) :=
  async_with get_conn (fun conn => conn_fetchrow conn query args).

(** ** api/upload.py *)

(** [except Exception as e: logger.error(f"...: {e}"); raise HTTPException(500, str(e))] *)
Definition except_Exception {A} (what : string) (e : exn) : M A :=
  do! logger_error (what +:+ ": " +:+ str_exn e) in
  raise (HTTPException 500 (str_exn e)).

Definition upload_file (file : UploadFile) : M json :=
  try_except
    (let! upload_id := uuid4 in
     let object_name := upload_id +:+ "/" +:+ file_filename file in
     let! minio := get_client in
     let file_size := Z.of_nat (length (file_file file)) in
     do! logger_info ("Starting upload: " +:+ file_filename file +:+ " ("
                      +:+ str_int file_size +:+ " bytes)") in
     let! bucket := gets (fun w => minio_bucket (settings w)) in
     do! put_object minio bucket object_name (file_file file) file_size
                    (file_content_type file) in
     let! result := execute_one INSERT_INTO_uploads
                      [Text upload_id; Text (file_filename file); Int file_size;
                       OptText (file_content_type file); Text bucket;
                       Text object_name; Text "completed"] in
     do! logger_info ("Upload completed: " +:+ upload_id) in
     ret (JObj [("upload_id", JStr upload_id);
                ("filename", JStr (file_filename file));
                ("file_size", JInt file_size);
                ("status", JStr "completed");
                ("message", JStr "File uploaded successfully. Processing will begin shortly.")]))
    (except_Exception "Upload failed").

Definition init_multipart_upload (filename : string) (content_type : option string) : M json :=
  try_except
    (let! upload_id := uuid4 in
     let object_name := upload_id +:+ "/" +:+ filename in
     let! minio := get_client in
     do! logger_info ("Multipart upload initialized: " +:+ upload_id) in
     ret (JObj [("upload_id", JStr upload_id);
                ("filename", JStr filename);
                ("object_name", JStr object_name);
                ("message", JStr "Multipart upload initialized. Upload parts using /upload/multipart/part endpoint.")]))
    (except_Exception "Multipart init failed").

Definition upload_part (upload_id : string) (part_number : Z) (file : UploadFile) : M json :=
  try_except
    (do! logger_info ("Part " +:+ str_int part_number +:+ " uploaded for " +:+ upload_id) in
     ret (JObj [("upload_id", JStr upload_id);
                ("part_number", JInt part_number);
                ("status", JStr "uploaded")]))
    (except_Exception "Part upload failed").

Definition complete_multipart_upload (upload_id : string) : M json :=
  try_except
    (do! logger_info ("Multipart upload completed: " +:+ upload_id) in
     ret (JObj [("upload_id", JStr upload_id);
                ("status", JStr "completed");
                ("message", JStr "Upload completed successfully")]))
    (except_Exception "Multipart complete failed").

Definition cancel_upload (upload_id : string) : M json :=
  try_except
    (do! logger_info ("Upload cancelled: " +:+ upload_id) in
     ret (JObj [("upload_id", JStr upload_id);
                ("status", JStr "cancelled")]))
    (except_Exception "Cancel upload failed").

(** ** api/status.py *)

Definition get_upload_status (upload_id : string) : M json :=
  try_except
    (let! result := execute_one SELECT_uploads_WHERE_id [Text upload_id] in
     match result with
     | None => raise (HTTPException 404 "Upload not found")
     | Some result =>
         ret (JObj [("upload_id", JStr (row_id result));
                    ("filename", JStr (row_filename result));
                    ("file_size", JInt (row_file_size result));
                    ("content_type", JOptStr (row_content_type result));
                    ("upload_status", JStr (row_upload_status result));
                    ("processing_status", JOptStr (row_processing_status result));
                    ("created_at", JOptIso (row_created_at result));
                    ("completed_at", JOptIso (row_completed_at result));
                    ("metadata", JOptStr (row_metadata result))])
     end)
    (fun e => match e with
              | HTTPException _ _ => raise e
              | _ => except_Exception "Failed to get upload status" e
              end).

Definition upload_summary (row : upload_row) : json :=
  JObj [("upload_id", JStr (row_id row));
        ("filename", JStr (row_filename row));
        ("file_size", JInt (row_file_size row));
        ("upload_status", JStr (row_upload_status row));
        ("processing_status", JOptStr (row_processing_status row));
        ("created_at", JOptIso (row_created_at row))].

Definition list_uploads (limit offset : Z) : M json :=
  try_except
    (let! results := execute_query SELECT_uploads_ORDER_BY_created_at_DESC
                       [Int limit; Int offset] in
     let uploads := map upload_summary results in
     ret (JObj [("uploads", JList uploads);
                ("count", JInt (Z.of_nat (length uploads)));
                ("limit", JInt limit);
                ("offset", JInt offset)]))
    (except_Exception "Failed to list uploads").

(** ** main.py: the routes *)

Inductive request :=
| POST_upload (file : UploadFile)
| POST_upload_multipart_init (filename : string) (content_type : option string)
| POST_upload_multipart_part (upload_id : string) (part_number : Z) (file : UploadFile)
| POST_upload_multipart_complete (upload_id : string)
| DELETE_upload (upload_id : string)
| GET_upload_status (upload_id : string)
| GET_uploads (limit offset : Z).

Definition route (r : request) : M json :=
  match r with
  | POST_upload f => upload_file f
  | POST_upload_multipart_init fn ct => init_multipart_upload fn ct
  | POST_upload_multipart_part id n f => upload_part id n f
  | POST_upload_multipart_complete id => complete_multipart_upload id
  | DELETE_upload id => cancel_upload id
  | GET_upload_status id => get_upload_status id
  | GET_uploads l o => list_uploads l o
  end.

(** The application serving a sequence of requests: an exception a handler
    raises becomes that request's response, and the next request is served
    from the state the handler left. *)
Fixpoint serve (rs : list request) (w : world) : list (outcome json) * world :=
  match rs with
  | [] => ([], w)
  | r :: rest =>
      let '(o, w') := route r w in
      let '(os, w'') := serve rest w' in
      (o :: os, w'')
  end.

(** ** workers/src/worker.py *)

(** A Python [float], as the dyadic rational [m * 2^e] it denotes. *)
Record float := Float { mantissa : Z; exponent : Z }.

(** The literal [0.1]. *)
Definition float_0_1 : float := Float 3602879701896397 (-55).

Definition extract_text (document_id : string) : M string :=
  do! logger_info ("Extracting text from document: " +:+ document_id) in
  ret "Extracted text placeholder".

Definition chunk_document (text : string) : M (list string) :=
  do! logger_info ("Chunking document (" +:+ str_int (len_str text) +:+ " chars)") in
  ret ["chunk1"; "chunk2"; "chunk3"].

Definition generate_embeddings (chunks : list string) : M (list (list float)) :=
  do! logger_info ("Generating embeddings for "
                   +:+ str_int (Z.of_nat (length chunks)) +:+ " chunks") in
  ret (map (fun _ => replicate 1536 float_0_1) chunks).

Definition store_embeddings (document_id : string) (chunks : list string)
    (embeddings : list (list float)) : M bool :=
  do! logger_info ("Storing " +:+ str_int (Z.of_nat (length chunks))
                   +:+ " chunks with embeddings") in
  ret true.

(** [workflow.execute_activity(activity, ..., start_to_close_timeout=...)],
    for an activity that executes as defined: no time-out and no worker
    loss is modelled. *)
Definition execute_activity {A} (activity : M A) (start_to_close_timeout_minutes : Z) : M A :=
  activity.

Module DocumentProcessingWorkflow.

Definition run (document_id : string) : M json :=
  let! text := execute_activity (extract_text document_id) 10 in
  let! chunks := execute_activity (chunk_document text) 5 in
  let! embeddings := execute_activity (generate_embeddings chunks) 10 in
  let! stored := execute_activity (store_embeddings document_id chunks embeddings) 5 in
  ret (JObj [("document_id", JStr document_id);
             ("chunks_count", JInt (Z.of_nat (length chunks)));
             ("status", JStr (if stored : bool then "completed" else "failed"))]).

End DocumentProcessingWorkflow.

(** ** Request histories and the parts a session has seen *)

Definition returned {A} (o : outcome A) : option A :=
  match o with Returned a => Some a | Raised _ => None end.

Definition succeeded {A} (o : outcome A) : bool :=
  match o with Returned _ => true | Raised _ => false end.

(** The part number a request added to session [upload_id]: the request is
    a part upload for that session and it was answered "uploaded". *)
Definition acked_part (upload_id : string) (r : request) (o : outcome json) : option Z :=
  match r, o with
  | POST_upload_multipart_part id n _, Returned j =>
      match field "status" j with
      | Some (JStr st) =>
          if String.eqb id upload_id && String.eqb st "uploaded" then Some n else None
      | _ => None
      end
  | _, _ => None
  end.

Definition parts_seen (upload_id : string) (rs : list request) (w : world) : list Z :=
  omap (fun ro => acked_part upload_id (fst ro) (snd ro)) (zip rs (fst (serve rs w))).

(** The part number a request asks to add to session [upload_id]. *)
Definition requested_part (upload_id : string) (r : request) : option Z :=
  match r with
  | POST_upload_multipart_part id n _ =>
      if String.eqb id upload_id then Some n else None
  | _ => None
  end.

(** The requests that upload the given parts of a session, in order. *)
Definition upload_parts (upload_id : string) (file : UploadFile) (parts : list Z)
  : list request :=
  map (fun n => POST_upload_multipart_part upload_id n file) parts.

(** The contiguity rule, as the specification words it: with N the highest
    part number seen, the parts are exactly 1..N; a gap is a number of 1..N
    that is not a part. *)
Definition highest_part (parts : list Z) : Z := foldr Z.max 0 parts.

Definition spec_gaps (parts : list Z) : list Z :=
  filter (fun k => k ∉ parts) (map Z.of_nat (seq 1 (Z.to_nat (highest_part parts)))).

Definition spec_contiguous (parts : list Z) : Prop :=
  forall k, k ∈ parts <-> (1 <= k <= highest_part parts)%Z.

(** ** Sample states and requests *)

Definition sample_uuid (n : nat) : string :=
  "5c1f0a3e-7b2d-4e6a-9f10-" +:+ str_int (Z.of_nat n).

Definition sample_world : world := {|
  settings := default_settings;
  pool := true;
  minio_client := true;
  uploads := [];
  db_now := 1700000000;
  objects := ∅;
  uuid_source := sample_uuid;
  uuid_drawn := 0;
  log := []
|}.

Definition sample_file : UploadFile := {|
  file_filename := "report.pdf";
  file_content_type := Some "application/pdf";
  file_file := [Byte.x25; Byte.x50; Byte.x44; Byte.x46]
|}.

Definition sample_session : string := sample_uuid 0.

(** A session is opened and parts 1, 2 and 4 are uploaded. *)
Definition parts_1_2_4 : list request :=
  [POST_upload_multipart_init "report.pdf" None;
   POST_upload_multipart_part sample_session 1 sample_file;
   POST_upload_multipart_part sample_session 2 sample_file;
   POST_upload_multipart_part sample_session 4 sample_file].

(** A session is opened, three parts are uploaded, the session is aborted. *)
Definition three_parts_then_abort : list request :=
  [POST_upload_multipart_init "report.pdf" None;
   POST_upload_multipart_part sample_session 1 sample_file;
   POST_upload_multipart_part sample_session 2 sample_file;
   POST_upload_multipart_part sample_session 3 sample_file;
   DELETE_upload sample_session].

(** A session is opened, one part is uploaded, the session is completed. *)
Definition one_part_then_complete : list request :=
  [POST_upload_multipart_init "report.pdf" None;
   POST_upload_multipart_part sample_session 1 sample_file;
   POST_upload_multipart_complete sample_session].

Definition sample_row (id : string) (created : option datetime) : upload_row := {|
  row_id := id; row_filename := "a.txt"; row_file_size := 3;
  row_content_type := None; row_minio_bucket := "document-uploads";
  row_minio_key := id +:+ "/a.txt"; row_upload_status := "completed";
  row_processing_status := None; row_created_at := created;
  row_completed_at := None; row_metadata := None
|}.

(** A state whose table holds two sessions, the older one first. *)
Definition world_with_two_uploads : world :=
  set_uploads [sample_row "u-old" (Some 100); sample_row "u-new" (Some 200)] sample_world.

(** A computation keeps a view of the state when the view reads the same
    after it as before it, whatever the outcome. *)
Definition keeps {X A} (view : world -> X) (m : M A) : Prop :=
  forall w, view (snd (m w)) = view w.

(** ** Start-up and shut-down: database.py, minio_client.py, main.py *)

Definition set_pool (p : bool) (w : world) : world :=
  {| settings := settings w; pool := p; minio_client := minio_client w;
     uploads := uploads w; db_now := db_now w; objects := objects w;
     uuid_source := uuid_source w; uuid_drawn := uuid_drawn w; log := log w |}.

Definition set_minio_client (c : bool) (w : world) : world :=
  {| settings := settings w; pool := pool w; minio_client := c;
     uploads := uploads w; db_now := db_now w; objects := objects w;
     uuid_source := uuid_source w; uuid_drawn := uuid_drawn w; log := log w |}.

(** [conn.execute(query, *args)]: runs the statement and returns its
    command tag. *)
Definition conn_execute (c : Connection) (query : sql) (args : list sqlarg) : M string :=
  let! rows := conn_fetch c query args in
  ret (match query with
       | INSERT_INTO_uploads => "INSERT 0 "
       | _ => "SELECT "
       end +:+ str_int (Z.of_nat (length rows))).

Definition execute_command (query : sql) (args : list sqlarg) : M string :=
  async_with get_conn (fun conn => conn_execute conn query args).

(** [conn.fetchval('SELECT 1')] *)
Definition conn_fetchval_SELECT_1 (_ : Connection) : M Z := ret 1%Z.

(** [init_db()], against a database that accepts the connection.  Here the
    pool's own [acquire()] is what [async with] is given. *)
Definition init_db : M unit :=
  try_except
    (do! modify (set_pool true) in
     do! logger_info "Database pool created successfully" in
     async_with PoolAcquireContext (fun conn =>
       let! one := conn_fetchval_SELECT_1 conn in
       logger_info "Database connection test successful"))
    (fun e =>
       do! logger_error ("Failed to initialize database: " +:+ str_exn e) in
       raise e).

(** [close_db()]: the pool is closed, the global keeps naming it. *)
Definition close_db : M unit :=
  let! p := gets pool in
  if p then logger_info "Database pool closed" else ret tt.

(** [init_minio()], against an object store that answers.  The buckets of
    the store are passed in and handed back. *)
Definition init_minio (buckets : gset string) : M (gset string) :=
  try_except
    (do! modify (set_minio_client true) in
     let! endpoint := gets (fun w => minio_endpoint (settings w)) in
     do! logger_info ("MinIO client initialized for endpoint: " +:+ endpoint) in
     let! bucket_name := gets (fun w => minio_bucket (settings w)) in
     if decide (bucket_name ∈ buckets)
     then do! logger_info ("Bucket already exists: " +:+ bucket_name) in
          ret buckets
     else do! logger_info ("Created bucket: " +:+ bucket_name) in
          ret ({[bucket_name]} ∪ buckets))
    (fun e =>
       do! logger_error ("Failed to initialize MinIO: " +:+ str_exn e) in
       raise e).

(** [lifespan], up to its [yield] ... *)
Definition lifespan_startup (buckets : gset string) : M (gset string) :=
  do! logger_info "Starting Document Upload API..." in
  do! init_db in
  do! logger_info "Database initialized" in
  let! buckets := init_minio buckets in
  let! bucket := gets (fun w => minio_bucket (settings w)) in
  do! logger_info ("MinIO initialized - bucket: " +:+ bucket) in
  ret buckets.

(** ... and after it. *)
Definition lifespan_shutdown : M unit :=
  do! logger_info "Shutting down Document Upload API..." in
  close_db.




(** ** Identifiers *)

(** Does the handler of the request call [uuid.uuid4()]? *)
Definition draws_uuid (r : request) : bool :=
  match r with
  | POST_upload _ | POST_upload_multipart_init _ _ => true
  | _ => false
  end.

(** The upload id a multipart init handed to its client. *)
Definition issued_id (r : request) (o : outcome json) : option string :=
  match r, o with
  | POST_upload_multipart_init _ _, Returned j =>
      match field "upload_id" j with
      | Some (JStr u) => Some u
      | _ => None
      end
  | _, _ => None
  end.

Definition issued_ids (rs : list request) (w : world) : list string :=
  omap (fun ro => issued_id (fst ro) (snd ro)) (zip rs (fst (serve rs w))).

(** ** config.py: secrets *)

(** [c.isspace()], for the characters a [string] holds (code points below
    256). *)
Definition isspace (c : Ascii.ascii) : bool :=
  let n := Ascii.nat_of_ascii c in
  ((9 <=? n) && (n <=? 13) || (28 <=? n) && (n <=? 32) || (n =? 133) || (n =? 160))%nat.

Fixpoint lstrip (s : string) : string :=
  match s with
  | EmptyString => EmptyString
  | String c rest => if isspace c then lstrip rest else s
  end.

Fixpoint rstrip (s : string) : string :=
  match s with
  | EmptyString => EmptyString
  | String c rest =>
      match rstrip rest with
      | EmptyString => if isspace c then EmptyString else String c EmptyString
      | kept => String c kept
      end
  end.

(** [s.strip()] *)
Definition strip (s : string) : string := lstrip (rstrip s).

(** [read_secret(secret_name)]; [files] maps the path of each readable
    file to its text. *)
Definition read_secret (files : gmap string string) (secret_name : string)
  : option string :=
  match files !! ("/run/secrets/" +:+ secret_name) with
  | Some text => Some (strip text)
  | None => None
  end.

(** [a or b] on optional strings: [None] and the empty string are false. *)
Definition py_or (a b : option string) : option string :=
  match a with
  | Some EmptyString | None => b
  | Some _ => a
  end.

(** The credentials among the settings. *)
Record Credentials := {
  minio_access_key : option string;
  minio_secret_key : option string;
  openai_api_key : option string
}.

(** The credential lines of [Settings.__init__]: each value read from the
    environment gives way to the Docker secret of its name.  (The
    [database_url] line is not modelled.) *)
Definition override_with_secrets (files : gmap string string) (env : Credentials)
  : Credentials := {|
  minio_access_key := py_or (read_secret files "minio_access_key") (minio_access_key env);
  minio_secret_key := py_or (read_secret files "minio_secret_key") (minio_secret_key env);
  openai_api_key := py_or (read_secret files "openai_api_key") (openai_api_key env)
|}.

(** A string of whitespace only. *)
Fixpoint blank (s : string) : bool :=
  match s with
  | EmptyString => true
  | String c rest => isspace c && blank rest
  end.

(** * Properties *)

(** ** Frame rules of the monad *)

Section Frame.
Context {X : Type} (view : world -> X).
Hypothesis view_log : forall l w, view (set_log l w) = view w.
Hypothesis view_uuid : forall n w, view (set_uuid_drawn n w) = view w.

Lemma keeps_ret {A} (a : A) : keeps view (ret a).
Proof. intros w. reflexivity. Qed.

Lemma keeps_raise {A} (e : exn) : keeps view (@raise A e).
Proof. intros w. reflexivity. Qed.

Lemma keeps_gets {A} (f : world -> A) : keeps view (gets f).
Proof. intros w. reflexivity. Qed.

Lemma keeps_bind {A B} (m : M A) (k : A -> M B) :
  keeps view m -> (forall a, keeps view (k a)) -> keeps view (bind m k).
Proof.
  intros Hm Hk w. unfold bind. specialize (Hm w).
  destruct (m w) as [[a|e] w1]; simpl in *.
  - rewrite Hk. exact Hm.
  - exact Hm.
Qed.

Lemma keeps_try_except {A} (m : M A) (h : exn -> M A) :
  keeps view m -> (forall e, keeps view (h e)) -> keeps view (try_except m h).
Proof.
  intros Hm Hh w. unfold try_except. specialize (Hm w).
  destruct (m w) as [[a|e] w1]; simpl in *.
  - exact Hm.
  - rewrite Hh. exact Hm.
Qed.

Lemma keeps_logger_info msg : keeps view (logger_info msg).
Proof. intros w. apply view_log. Qed.

Lemma keeps_logger_error msg : keeps view (logger_error msg).
Proof. intros w. apply view_log. Qed.

Lemma keeps_uuid4 : keeps view uuid4.
Proof. intros w. apply view_uuid. Qed.

Lemma keeps_get_client : keeps view get_client.
Proof.
  apply keeps_bind; [apply keeps_gets|].
  intros []; [apply keeps_ret | apply keeps_raise].
Qed.

Lemma keeps_except_Exception {A} what e : keeps view (@except_Exception A what e).
Proof.
  apply keeps_bind; [apply keeps_logger_error | intros; apply keeps_raise].
Qed.

(** [async with] adds no effect of its own, whatever it is given. *)
Lemma keeps_async_with {A} cm (body : Connection -> M A) :
  (forall conn, keeps view (body conn)) -> keeps view (async_with cm body).
Proof.
  intros Hbody. destruct cm; [apply Hbody | apply keeps_raise].
Qed.

(** The two SELECT statements read the table and write nothing. *)
Lemma keeps_select_where_id conn args :
  keeps view (conn_fetch conn SELECT_uploads_WHERE_id args).
Proof.
  unfold conn_fetch.
  repeat match goal with
         | |- keeps _ (match ?x with _ => _ end) => destruct x
         end;
    try apply keeps_raise.
  apply keeps_bind; [apply keeps_gets | intros; apply keeps_ret].
Qed.

Lemma keeps_select_order_by conn args :
  keeps view (conn_fetch conn SELECT_uploads_ORDER_BY_created_at_DESC args).
Proof.
  unfold conn_fetch.
  repeat match goal with
         | |- keeps _ (match ?x with _ => _ end) => destruct x
         | |- keeps _ (if ?x then _ else _) => destruct x
         end;
    try apply keeps_raise.
  all: apply keeps_bind; [apply keeps_gets | intros; apply keeps_ret].
Qed.

Lemma keeps_get_upload_status upload_id : keeps view (get_upload_status upload_id).
Proof.
  apply keeps_try_except.
  - apply keeps_bind.
    + apply keeps_async_with. intros conn.
      apply keeps_bind; [apply keeps_select_where_id | intros; apply keeps_ret].
    + intros [row|]; [apply keeps_ret | apply keeps_raise].
  - intros []; first [apply keeps_raise | apply keeps_except_Exception].
Qed.

Lemma keeps_list_uploads limit offset : keeps view (list_uploads limit offset).
Proof.
  apply keeps_try_except.
  - apply keeps_bind.
    + apply keeps_async_with. intros conn. apply keeps_select_order_by.
    + intros; apply keeps_ret.
  - intros; apply keeps_except_Exception.
Qed.

Lemma keeps_upload_part upload_id part_number file :
  keeps view (upload_part upload_id part_number file).
Proof.
  apply keeps_try_except; [|intros; apply keeps_except_Exception].
  apply keeps_bind; [apply keeps_logger_info | intros; apply keeps_ret].
Qed.

Lemma keeps_complete_multipart_upload upload_id :
  keeps view (complete_multipart_upload upload_id).
Proof.
  apply keeps_try_except; [|intros; apply keeps_except_Exception].
  apply keeps_bind; [apply keeps_logger_info | intros; apply keeps_ret].
Qed.

Lemma keeps_cancel_upload upload_id : keeps view (cancel_upload upload_id).
Proof.
  apply keeps_try_except; [|intros; apply keeps_except_Exception].
  apply keeps_bind; [apply keeps_logger_info | intros; apply keeps_ret].
Qed.

Lemma keeps_init_multipart_upload filename content_type :
  keeps view (init_multipart_upload filename content_type).
Proof.
  apply keeps_try_except; [|intros; apply keeps_except_Exception].
  apply keeps_bind; [apply keeps_uuid4 | intros upload_id].
  apply keeps_bind; [apply keeps_get_client | intros minio].
  apply keeps_bind; [apply keeps_logger_info | intros; apply keeps_ret].
Qed.

End Frame.

Lemma persisted_set_log l w : persisted (set_log l w) = persisted w.
Proof. reflexivity. Qed.

Lemma persisted_set_uuid_drawn n w : persisted (set_uuid_drawn n w) = persisted w.
Proof. reflexivity. Qed.

(** ** The status reporter *)

(** C6: the status reporter operations, [get_upload_status]
    (GET /upload/{upload_id}/status) and [list_uploads] (GET /uploads),
    never mutate persisted state: for every input and every starting state,
    the uploads table and the object store after the call are the ones
    before it.  (The log is the only thing they write.) *)
Theorem status_reporter_never_mutates (w : world) :
  (forall upload_id,
      persisted (world_of (get_upload_status upload_id w)) = persisted w) /\
  (forall limit offset,
      persisted (world_of (list_uploads limit offset w)) = persisted w).
Proof.
  split; intros.
  - apply (keeps_get_upload_status persisted persisted_set_log).
  - apply (keeps_list_uploads persisted persisted_set_log).
Qed.

(** ** Multipart sessions *)

Lemma complete_multipart_upload_result upload_id w :
  result_of (complete_multipart_upload upload_id w)
  = Returned (JObj [("upload_id", JStr upload_id);
                    ("status", JStr "completed");
                    ("message", JStr "Upload completed successfully")]).
Proof. reflexivity. Qed.

Lemma upload_part_result upload_id part_number file w :
  result_of (upload_part upload_id part_number file w)
  = Returned (JObj [("upload_id", JStr upload_id);
                    ("part_number", JInt part_number);
                    ("status", JStr "uploaded")]).
Proof. reflexivity. Qed.

Lemma serve_cons r rest w :
  fst (serve (r :: rest) w) = fst (route r w) :: fst (serve rest (snd (route r w))).
Proof.
  cbn [serve]. destruct (route r w) as [o w1]. cbn [fst snd].
  destruct (serve rest w1) as [os w2]. reflexivity.
Qed.

(** Every part request is acknowledged: the parts a session has seen are
    the parts that were sent for it. *)
Lemma parts_seen_requested upload_id rs w :
  parts_seen upload_id rs w = omap (requested_part upload_id) rs.
Proof.
  unfold parts_seen. revert w.
  induction rs as [|r rest IH]; intros w.
  - reflexivity.
  - rewrite serve_cons. cbn [zip zip_with omap list_omap fst snd].
    rewrite (IH (snd (route r w))).
    destruct r as [f|fn ct|id n f|id|id|id|l o]; try reflexivity.
    cbn [route requested_part acked_part].
    change (fst (upload_part id n f w)) with (result_of (upload_part id n f w)).
    rewrite upload_part_result. cbn [field assoc String.eqb Ascii.eqb Bool.eqb].
    destruct (String.eqb id upload_id); reflexivity.
Qed.

(** So a session can be brought to see any list of part numbers. *)
Lemma parts_seen_upload_parts upload_id file parts w :
  parts_seen upload_id (upload_parts upload_id file parts) w = parts.
Proof.
  rewrite parts_seen_requested. unfold upload_parts.
  induction parts as [|n rest IH]; cbn.
  - reflexivity.
  - rewrite String.eqb_refl. cbn. now rewrite IH.
Qed.

(** C1, as the specification states it, fails on the code: after parts 1, 2
    and 4 of a session (a gap at 3, so not 1..N), completion succeeds; and
    the completion leaves the uploads table empty, so no document record
    was created. *)
Lemma complete_parts_1_2_4_counterexample :
  parts_seen sample_session parts_1_2_4 sample_world = [1; 2; 4] /\
  spec_gaps [1; 2; 4] = [3] /\
  ~ spec_contiguous [1; 2; 4] /\
  result_of (complete_multipart_upload sample_session
               (snd (serve parts_1_2_4 sample_world)))
  = Returned (JObj [("upload_id", JStr sample_session);
                    ("status", JStr "completed");
                    ("message", JStr "Upload completed successfully")]) /\
  uploads (world_of (complete_multipart_upload sample_session
                       (snd (serve parts_1_2_4 sample_world)))) = [].
Proof.
  split; [reflexivity|]. split; [reflexivity|]. split; [|split; reflexivity].
  intros H. destruct (H 3) as [_ H3].
  assert (Hin : 3 ∈ [1; 2; 4]) by (apply H3; cbn; lia).
  rewrite !elem_of_cons, elem_of_nil in Hin. lia.
Qed.

(** C1, amended: [complete_multipart_upload] succeeds for every session,
    whatever requests came before and so whatever part numbers the session
    has seen, contiguous or not: it answers with the upload id and status
    "completed", checks no part number, reports no gap, and writes neither
    to the uploads table nor to the object store (no document record is
    created). *)
Theorem complete_multipart_upload_any_parts
    (rs : list request) (upload_id : string) (w : world) :
  result_of (complete_multipart_upload upload_id (snd (serve rs w)))
  = Returned (JObj [("upload_id", JStr upload_id);
                    ("status", JStr "completed");
                    ("message", JStr "Upload completed successfully")]) /\
  persisted (world_of (complete_multipart_upload upload_id (snd (serve rs w))))
  = persisted (snd (serve rs w)).
Proof.
  split.
  - apply complete_multipart_upload_result.
  - apply (keeps_complete_multipart_upload persisted persisted_set_log).
Qed.

(** C2: completion is idempotent: a second [complete_multipart_upload] on
    the session returns what the first returned, with the same upload id
    (the document id), and the object store after the second call is the
    one the first call left: no compose takes place. *)
Theorem complete_multipart_upload_idempotent (upload_id : string) (w : world) :
  let first := complete_multipart_upload upload_id w in
  let second := complete_multipart_upload upload_id (world_of first) in
  result_of second = result_of first /\
  (field "upload_id" <$> returned (result_of second)) = Some (Some (JStr upload_id)) /\
  (field "upload_id" <$> returned (result_of first)) = Some (Some (JStr upload_id)) /\
  persisted (world_of second) = persisted (world_of first).
Proof.
  cbv zeta. rewrite !complete_multipart_upload_result.
  split; [reflexivity|]. split; [reflexivity|]. split; [reflexivity|].
  apply (keeps_complete_multipart_upload persisted persisted_set_log).
Qed.

(** C4, as the specification states it, fails on the code: after a session
    with three parts is aborted (the DELETE is answered "cancelled"), a
    further part upload on it is answered "uploaded"; the same after a
    session is completed. *)
Lemma upload_part_on_closed_session_counterexample :
  fst (serve three_parts_then_abort sample_world) !! 4%nat
  = Some (Returned (JObj [("upload_id", JStr sample_session);
                          ("status", JStr "cancelled")])) /\
  result_of (upload_part sample_session 4 sample_file
               (snd (serve three_parts_then_abort sample_world)))
  = Returned (JObj [("upload_id", JStr sample_session);
                    ("part_number", JInt 4);
                    ("status", JStr "uploaded")]) /\
  fst (serve one_part_then_complete sample_world) !! 2%nat
  = Some (Returned (JObj [("upload_id", JStr sample_session);
                          ("status", JStr "completed");
                          ("message", JStr "Upload completed successfully")])) /\
  succeeded (result_of (upload_part sample_session 2 sample_file
                          (snd (serve one_part_then_complete sample_world)))) = true.
Proof. repeat split. Qed.

(** C4, amended: [upload_part] keeps no session state and checks none: for
    every session, whatever requests came before (completion and abort
    included), it answers with the upload id, the part number and status
    "uploaded", and writes neither to the uploads table nor to the object
    store. *)
Theorem upload_part_any_session
    (rs : list request) (upload_id : string) (part_number : Z)
    (file : UploadFile) (w : world) :
  result_of (upload_part upload_id part_number file (snd (serve rs w)))
  = Returned (JObj [("upload_id", JStr upload_id);
                    ("part_number", JInt part_number);
                    ("status", JStr "uploaded")]) /\
  persisted (world_of (upload_part upload_id part_number file (snd (serve rs w))))
  = persisted (snd (serve rs w)).
Proof.
  split.
  - apply upload_part_result.
  - apply (keeps_upload_part persisted persisted_set_log).
Qed.

(** ** Session creation and object keys *)

Lemma init_multipart_upload_result filename content_type w :
  minio_client w = true ->
  result_of (init_multipart_upload filename content_type w)
  = Returned (JObj [("upload_id", JStr (uuid_source w (uuid_drawn w)));
                    ("filename", JStr filename);
                    ("object_name",
                     JStr (uuid_source w (uuid_drawn w) +:+ "/" +:+ filename));
                    ("message", JStr "Multipart upload initialized. Upload parts using /upload/multipart/part endpoint.")]).
Proof.
  intros Hclient.
  unfold init_multipart_upload, try_except, bind, uuid4, get_client, gets, result_of.
  cbn. rewrite Hclient. reflexivity.
Qed.

(** Without an object-store client the request fails for every filename,
    with status 500. *)
Lemma init_multipart_upload_no_client filename content_type w :
  minio_client w = false ->
  result_of (init_multipart_upload filename content_type w)
  = Raised (HTTPException 500 "MinIO client not initialized").
Proof.
  intros Hclient.
  unfold init_multipart_upload, try_except, bind, uuid4, get_client, gets, result_of.
  cbn. rewrite Hclient. reflexivity.
Qed.

(** C5, as the specification states it, fails on the code: an init request
    with the empty filename is answered with a new upload id and the object
    name [upload_id/]; it is not rejected. *)
Lemma init_empty_filename_counterexample :
  result_of (init_multipart_upload "" None sample_world)
  = Returned (JObj [("upload_id", JStr "5c1f0a3e-7b2d-4e6a-9f10-0");
                    ("filename", JStr "");
                    ("object_name", JStr "5c1f0a3e-7b2d-4e6a-9f10-0/");
                    ("message", JStr "Multipart upload initialized. Upload parts using /upload/multipart/part endpoint.")]).
Proof. reflexivity. Qed.

(** C5, amended: [init_multipart_upload] does not validate the filename:
    for every init request with an empty filename, on a service whose
    object-store client is set, the call succeeds and returns a new upload
    id with the object name [upload_id/]; no session is created (the
    uploads table and the object store are left as they were). *)
Theorem init_multipart_upload_empty_filename (content_type : option string) (w : world) :
  minio_client w = true ->
  result_of (init_multipart_upload "" content_type w)
  = Returned (JObj [("upload_id", JStr (uuid_source w (uuid_drawn w)));
                    ("filename", JStr "");
                    ("object_name", JStr (uuid_source w (uuid_drawn w) +:+ "/"));
                    ("message", JStr "Multipart upload initialized. Upload parts using /upload/multipart/part endpoint.")]) /\
  persisted (world_of (init_multipart_upload "" content_type w)) = persisted w.
Proof.
  intros Hclient. split.
  - apply (init_multipart_upload_result "" content_type w Hclient).
  - apply (keeps_init_multipart_upload persisted persisted_set_log
             persisted_set_uuid_drawn).
Qed.

Lemma init_multipart_upload_empty_filename_witness :
  minio_client sample_world = true /\
  result_of (init_multipart_upload "" (Some "text/plain") sample_world)
  = Returned (JObj [("upload_id", JStr (uuid_source sample_world (uuid_drawn sample_world)));
                    ("filename", JStr "");
                    ("object_name",
                     JStr (uuid_source sample_world (uuid_drawn sample_world) +:+ "/"));
                    ("message", JStr "Multipart upload initialized. Upload parts using /upload/multipart/part endpoint.")]) /\
  persisted (world_of (init_multipart_upload "" (Some "text/plain") sample_world))
  = persisted sample_world.
Proof.
  split; [reflexivity|].
  apply (init_multipart_upload_empty_filename (Some "text/plain") sample_world).
  reflexivity.
Defined.

(** The single-shot upload puts the object under the derived key; this is
    all it changes in the object store. *)
Lemma upload_file_objects file w :
  minio_client w = true ->
  objects (world_of (upload_file file w))
  = <[(minio_bucket (settings w),
       uuid_source w (uuid_drawn w) +:+ "/" +:+ file_filename file) :=
        {| obj_data := file_file file;
           obj_length := Z.of_nat (length (file_file file));
           obj_content_type := file_content_type file |}]> (objects w).
Proof.
  intros Hclient.
  unfold upload_file, try_except, bind, uuid4, get_client, gets, world_of.
  cbn. rewrite Hclient. reflexivity.
Qed.

(** C8, as the specification states it, fails on the code: a multipart
    init derives the key [upload_id/filename] and returns it, but it
    persists no session, so no stored session carries the key as its object
    reference; nor is anything stored in the object store under it. *)
Lemma init_key_not_persisted_counterexample :
  (field "object_name" <$> returned
     (result_of (init_multipart_upload "report.pdf" None sample_world)))
  = Some (Some (JStr "5c1f0a3e-7b2d-4e6a-9f10-0/report.pdf")) /\
  uploads (world_of (init_multipart_upload "report.pdf" None sample_world)) = [] /\
  objects (world_of (init_multipart_upload "report.pdf" None sample_world))
    !! ("document-uploads", "5c1f0a3e-7b2d-4e6a-9f10-0/report.pdf") = None.
Proof. repeat split. Qed.

(** C8, amended: on a service whose object-store client is set, every
    upload derives the object key as the generated upload id, a slash, then
    the filename.  The single-shot upload stores the object in the
    configured bucket under that key.  The multipart init returns that key
    as [object_name] next to the upload id and persists nothing: the
    uploads table and the object store are left as they were. *)
Theorem object_key_is_upload_id_slash_filename (w : world) :
  minio_client w = true ->
  (forall file,
      objects (world_of (upload_file file w))
      = <[(minio_bucket (settings w),
           uuid_source w (uuid_drawn w) +:+ "/" +:+ file_filename file) :=
            {| obj_data := file_file file;
               obj_length := Z.of_nat (length (file_file file));
               obj_content_type := file_content_type file |}]> (objects w)) /\
  (forall filename content_type,
      result_of (init_multipart_upload filename content_type w)
      = Returned (JObj [("upload_id", JStr (uuid_source w (uuid_drawn w)));
                        ("filename", JStr filename);
                        ("object_name",
                         JStr (uuid_source w (uuid_drawn w) +:+ "/" +:+ filename));
                        ("message", JStr "Multipart upload initialized. Upload parts using /upload/multipart/part endpoint.")]) /\
      persisted (world_of (init_multipart_upload filename content_type w))
      = persisted w).
Proof.
  intros Hclient. split.
  - intros file. apply upload_file_objects, Hclient.
  - intros filename content_type. split.
    + apply init_multipart_upload_result, Hclient.
    + apply (keeps_init_multipart_upload persisted persisted_set_log
               persisted_set_uuid_drawn).
Qed.

Lemma object_key_is_upload_id_slash_filename_witness :
  minio_client sample_world = true /\
  objects (world_of (upload_file sample_file sample_world))
    !! ("document-uploads", "5c1f0a3e-7b2d-4e6a-9f10-0/report.pdf")
  = Some {| obj_data := file_file sample_file; obj_length := 4;
            obj_content_type := Some "application/pdf" |} /\
  (field "object_name" <$> returned
     (result_of (init_multipart_upload "report.pdf" None sample_world)))
  = Some (Some (JStr "5c1f0a3e-7b2d-4e6a-9f10-0/report.pdf")).
Proof.
  split; [reflexivity|].
  destruct (object_key_is_upload_id_slash_filename sample_world eq_refl)
    as [Hput Hinit].
  split.
  - rewrite (Hput sample_file). reflexivity.
  - rewrite (proj1 (Hinit "report.pdf" None)). reflexivity.
Defined.

(** ** Listing uploads *)

(** *** The query on an acquired connection *)

Lemma newer_eq_total a b : newer_eq a b = false -> newer_eq b a = true.
Proof.
  unfold newer_eq.
  destruct (row_created_at a) as [x|], (row_created_at b) as [y|];
    try discriminate; try reflexivity.
  intros H. apply Z.leb_gt in H. apply Z.leb_le. lia.
Qed.

Lemma newer_eq_trans a b c :
  newer_eq a b = true -> newer_eq b c = true -> newer_eq a c = true.
Proof.
  unfold newer_eq.
  destruct (row_created_at a) as [x|], (row_created_at b) as [y|],
           (row_created_at c) as [z|];
    try discriminate; try reflexivity.
  rewrite !Z.leb_le. lia.
Qed.

Lemma insert_newest_perm r l : insert_newest r l ≡ₚ r :: l.
Proof.
  induction l as [|s rest IH]; cbn.
  - reflexivity.
  - destruct (newer_eq r s).
    + reflexivity.
    + rewrite IH. apply Permutation_swap.
Qed.

Lemma order_by_created_at_desc_perm t : order_by_created_at_desc t ≡ₚ t.
Proof.
  induction t as [|r rest IH]; cbn.
  - reflexivity.
  - rewrite insert_newest_perm. now rewrite IH.
Qed.

Lemma insert_newest_HdRel a r l :
  newer_eq a r = true ->
  HdRel (fun x y => newer_eq x y = true) a l ->
  HdRel (fun x y => newer_eq x y = true) a (insert_newest r l).
Proof.
  intros Har Hhd. destruct l as [|s rest]; cbn.
  - constructor. exact Har.
  - destruct (newer_eq r s); constructor.
    + exact Har.
    + inversion Hhd; assumption.
Qed.

Lemma insert_newest_sorted r l :
  Sorted (fun x y => newer_eq x y = true) l ->
  Sorted (fun x y => newer_eq x y = true) (insert_newest r l).
Proof.
  induction 1 as [|s rest Hsorted IH Hhd]; cbn.
  - repeat constructor.
  - destruct (newer_eq r s) eqn:Hrs.
    + constructor; [constructor; assumption|]. constructor. exact Hrs.
    + constructor; [exact IH|].
      apply insert_newest_HdRel; [|exact Hhd].
      apply newer_eq_total, Hrs.
Qed.

(** The ordering is newest-first: every row is at least as new as every row
    after it (NULL times first, as PostgreSQL orders them). *)
Lemma order_by_created_at_desc_sorted t :
  StronglySorted (fun x y => newer_eq x y = true) (order_by_created_at_desc t).
Proof.
  apply Sorted_StronglySorted.
  - intros a b c. apply newer_eq_trans.
  - induction t as [|r rest IH]; cbn.
    + constructor.
    + apply insert_newest_sorted, IH.
Qed.

(** With a connection in hand the statement returns the page: the rows
    newest first, the first [offset] skipped, at most [limit] kept; and it
    leaves the state alone. *)
Lemma conn_fetch_page conn limit offset w :
  (0 <= limit < 2 ^ 63)%Z -> (0 <= offset < 2 ^ 63)%Z ->
  conn_fetch conn SELECT_uploads_ORDER_BY_created_at_DESC [Int limit; Int offset] w
  = (Returned (take (Z.to_nat limit)
                 (drop (Z.to_nat offset) (order_by_created_at_desc (uploads w)))), w).
Proof.
  intros Hl Ho. unfold conn_fetch.
  assert (Hbl : bigint limit = true).
  { unfold bigint. apply andb_true_intro. rewrite Z.leb_le, Z.ltb_lt. lia. }
  assert (Hbo : bigint offset = true).
  { unfold bigint. apply andb_true_intro. rewrite Z.leb_le, Z.ltb_lt. lia. }
  rewrite Hbl, Hbo. cbn [negb andb].
  destruct (Z.ltb_spec limit 0); [lia|].
  destruct (Z.ltb_spec offset 0); [lia|].
  reflexivity.
Qed.

Lemma page_length (limit offset : nat) (rows : list upload_row) :
  length (map upload_summary (take limit (drop offset rows)))
  = Nat.min limit (length rows - offset)%nat.
Proof. now rewrite length_map, length_take, length_drop. Qed.

(** *** The handler *)

(** [execute_query] never reaches the connection: [get_conn()] is a
    coroutine object and [async with] refuses it. *)
Lemma execute_query_raises query args w :
  execute_query query args w = (Raised not_a_context_manager, w).
Proof. reflexivity. Qed.

Lemma execute_one_raises query args w :
  execute_one query args w = (Raised not_a_context_manager, w).
Proof. reflexivity. Qed.

(** So the listing fails for every limit, every offset and every table. *)
Lemma list_uploads_raises limit offset w :
  result_of (list_uploads limit offset w)
  = Raised (HTTPException 500 (str_exn not_a_context_manager)).
Proof. reflexivity. Qed.

(** C7 fails on the code.  The table holds two sessions; the statement of
    GET /uploads?limit=50&offset=0, run on a connection, gives the page the
    claim describes (the newer session first), but [list_uploads] itself
    answers with status 500 and no rows: [execute_query] raises before
    the statement is sent. *)
Theorem list_uploads_fails_on_two_uploads :
  result_of (conn_fetch Conn SELECT_uploads_ORDER_BY_created_at_DESC
               [Int 50; Int 0] world_with_two_uploads)
  = Returned [sample_row "u-new" (Some 200); sample_row "u-old" (Some 100)] /\
  result_of (list_uploads 50 0 world_with_two_uploads)
  = Raised (HTTPException 500
      "'coroutine' object does not support the asynchronous context manager protocol") /\
  log (world_of (list_uploads 50 0 world_with_two_uploads))
  = [(ERROR, "Failed to list uploads: 'coroutine' object does not support the asynchronous context manager protocol")].
Proof. repeat split. Qed.

(** ** The worker *)

(** C3: chunking is deterministic: for every extracted text, two runs of
    [chunk_document] on it, from any two states of the worker, both return,
    and return the same list of chunks: the same chunk at every sequence
    index. *)
Theorem chunk_document_deterministic (text : string) (w1 w2 : world) :
  exists chunks,
    result_of (chunk_document text w1) = Returned chunks /\
    result_of (chunk_document text w2) = Returned chunks /\
    forall i : nat,
      (returned (result_of (chunk_document text w1)) ≫= (.!! i))
      = (returned (result_of (chunk_document text w2)) ≫= (.!! i)).
Proof.
  exists ["chunk1"; "chunk2"; "chunk3"]. repeat split.
Qed.

(** C9: for every list of chunks, [generate_embeddings] returns one vector
    per chunk, each of length 1536, which is the default of
    [embedding_dimensions] in the settings. *)
Theorem generate_embeddings_shape (chunks : list string) (w : world) :
  exists vectors,
    result_of (generate_embeddings chunks w) = Returned vectors /\
    length vectors = length chunks /\
    Forall (fun v => Z.of_nat (length v) = 1536%Z) vectors /\
    embedding_dimensions default_settings = 1536%Z.
Proof.
  exists (map (fun _ => replicate 1536 float_0_1) chunks).
  split; [reflexivity|]. split; [apply length_map|]. split; [|reflexivity].
  apply Forall_forall. intros v Hv.
  apply list_elem_of_In, in_map_iff in Hv. destruct Hv as (c & <- & _).
  rewrite length_replicate. reflexivity.
Qed.

Lemma store_embeddings_true document_id chunks embeddings w :
  result_of (store_embeddings document_id chunks embeddings w) = Returned true.
Proof. reflexivity. Qed.

(** C10: for every document id, when the four activities execute as
    defined, the workflow returns the document id, [chunks_count] 3 and
    status "completed"; the status is never "failed", because
    [store_embeddings] returns [True] on every input. *)
Theorem workflow_run_completed (document_id : string) (w : world) :
  result_of (DocumentProcessingWorkflow.run document_id w)
  = Returned (JObj [("document_id", JStr document_id);
                    ("chunks_count", JInt 3);
                    ("status", JStr "completed")]) /\
  (forall d chunks embeddings w',
      result_of (store_embeddings d chunks embeddings w') = Returned true).
Proof.
  split.
  - reflexivity.
  - intros. apply store_embeddings_true.
Qed.

(** * Further properties of the service *)

(** ** What a request can change *)

Section RouteFrame.
Context {X : Type} (view : world -> X).
Hypothesis view_log : forall l w, view (set_log l w) = view w.
Hypothesis view_uuid : forall n w, view (set_uuid_drawn n w) = view w.
Hypothesis view_objects : forall o w, view (set_objects o w) = view w.

Lemma keeps_put_object minio bucket key data len ctype :
  keeps view (put_object minio bucket key data len ctype).
Proof. intros w. apply view_objects. Qed.

(** The INSERT sits behind [get_conn()], a coroutine object: it is not
    reached. *)
Lemma keeps_execute_one query args : keeps view (execute_one query args).
Proof. apply keeps_raise. Qed.

Lemma keeps_upload_file file : keeps view (upload_file file).
Proof.
  apply keeps_try_except; [|intros; apply (keeps_except_Exception view view_log)].
  apply keeps_bind; [apply (keeps_uuid4 view view_uuid) | intros upload_id].
  apply keeps_bind; [apply keeps_get_client | intros minio].
  apply keeps_bind; [apply (keeps_logger_info view view_log) | intros _].
  apply keeps_bind; [apply keeps_gets | intros bucket].
  apply keeps_bind; [apply keeps_put_object | intros _].
  apply keeps_bind; [apply keeps_execute_one | intros result].
  apply keeps_bind; [apply (keeps_logger_info view view_log) | intros _].
  apply keeps_ret.
Qed.

Lemma keeps_route r : keeps view (route r).
Proof.
  destruct r; cbn [route].
  - apply keeps_upload_file.
  - apply (keeps_init_multipart_upload view view_log view_uuid).
  - apply (keeps_upload_part view view_log).
  - apply (keeps_complete_multipart_upload view view_log).
  - apply (keeps_cancel_upload view view_log).
  - apply (keeps_get_upload_status view view_log).
  - apply (keeps_list_uploads view view_log).
Qed.

Lemma keeps_serve rs w : view (snd (serve rs w)) = view w.
Proof.
  revert w. induction rs as [|r rest IH]; intros w; [reflexivity|].
  cbn [serve]. pose proof (keeps_route r w) as Hr.
  destruct (route r w) as [o w1]. specialize (IH w1).
  destruct (serve rest w1) as [os w2]. cbn [snd] in *. congruence.
Qed.

End RouteFrame.

(** X1: no sequence of requests changes the uploads table.  Its one writer,
    the INSERT of [upload_file], is never reached. *)
Theorem uploads_table_never_changes (rs : list request) (w : world) :
  uploads (snd (serve rs w)) = uploads w.
Proof.
  apply (keeps_serve uploads); reflexivity.
Qed.

Lemma upload_file_result file w :
  minio_client w = true ->
  result_of (upload_file file w)
  = Raised (HTTPException 500 (str_exn not_a_context_manager)).
Proof.
  intros Hclient.
  unfold upload_file, try_except, bind, uuid4, get_client, gets, result_of.
  cbn. rewrite Hclient. reflexivity.
Qed.

Lemma upload_file_log file w :
  minio_client w = true ->
  log (world_of (upload_file file w))
  = (log w ++ [(INFO, "Starting upload: " +:+ file_filename file +:+ " ("
                      +:+ str_int (Z.of_nat (length (file_file file))) +:+ " bytes)");
               (ERROR, "Upload failed: " +:+ str_exn not_a_context_manager)])%list.
Proof.
  intros Hclient.
  unfold upload_file, try_except, bind, uuid4, get_client, gets, world_of.
  cbn -[str_int]. rewrite Hclient. cbn -[str_int].
  rewrite <- app_assoc. reflexivity.
Qed.

Lemma upload_file_no_client file w :
  minio_client w = false ->
  result_of (upload_file file w)
  = Raised (HTTPException 500 "MinIO client not initialized") /\
  persisted (world_of (upload_file file w)) = persisted w /\
  log (world_of (upload_file file w))
  = (log w ++ [(ERROR, "Upload failed: MinIO client not initialized")])%list.
Proof.
  intros Hclient.
  unfold upload_file, try_except, bind, uuid4, get_client, gets, result_of, world_of.
  cbn. rewrite Hclient. cbn. repeat split.
Qed.

Lemma init_multipart_upload_log filename content_type w :
  log (world_of (init_multipart_upload filename content_type w))
  = (log w ++ [if minio_client w
               then (INFO, "Multipart upload initialized: " +:+ uuid_source w (uuid_drawn w))
               else (ERROR, "Multipart init failed: MinIO client not initialized")])%list.
Proof.
  unfold init_multipart_upload, try_except, bind, uuid4, get_client, gets, world_of.
  cbn. destruct (minio_client w); reflexivity.
Qed.

(** X2: the single-shot upload never succeeds, and when the object-store
    client is set it fails only after the object has been stored: the
    request is answered with status 500, the object stays in the bucket
    under [upload_id/filename], and no row of the uploads table records
    it. *)
Theorem upload_file_orphans_object (file : UploadFile) (w : world) :
  minio_client w = true ->
  result_of (upload_file file w)
  = Raised (HTTPException 500 (str_exn not_a_context_manager)) /\
  objects (world_of (upload_file file w))
    !! (minio_bucket (settings w),
        uuid_source w (uuid_drawn w) +:+ "/" +:+ file_filename file)
  = Some {| obj_data := file_file file;
            obj_length := Z.of_nat (length (file_file file));
            obj_content_type := file_content_type file |} /\
  uploads (world_of (upload_file file w)) = uploads w.
Proof.
  intros Hclient. split; [apply upload_file_result, Hclient|]. split.
  - rewrite (upload_file_objects file w Hclient). apply lookup_insert_eq.
  - apply (keeps_upload_file uploads); reflexivity.
Qed.

Lemma upload_file_orphans_object_witness :
  minio_client sample_world = true /\
  result_of (upload_file sample_file sample_world)
  = Raised (HTTPException 500 (str_exn not_a_context_manager)) /\
  uploads (world_of (upload_file sample_file sample_world)) = [].
Proof.
  split; [reflexivity|].
  destruct (upload_file_orphans_object sample_file sample_world eq_refl)
    as (Hres & _ & Hrows).
  split; [exact Hres | exact Hrows].
Defined.

(** X3: while the object-store client is not set, both upload entry points
    answer status 500 with "MinIO client not initialized", for every file
    and filename, and change neither the table nor the object store. *)
Theorem uploads_fail_without_client (w : world) :
  minio_client w = false ->
  (forall file,
      result_of (upload_file file w)
      = Raised (HTTPException 500 "MinIO client not initialized") /\
      persisted (world_of (upload_file file w)) = persisted w) /\
  (forall filename content_type,
      result_of (init_multipart_upload filename content_type w)
      = Raised (HTTPException 500 "MinIO client not initialized") /\
      persisted (world_of (init_multipart_upload filename content_type w))
      = persisted w).
Proof.
  intros Hclient. split.
  - intros file. destruct (upload_file_no_client file w Hclient) as (Hres & Hkeep & _).
    split; assumption.
  - intros filename content_type. split.
    + apply init_multipart_upload_no_client, Hclient.
    + apply (keeps_init_multipart_upload persisted persisted_set_log
               persisted_set_uuid_drawn).
Qed.

Lemma uploads_fail_without_client_witness :
  minio_client (set_minio_client false sample_world) = false /\
  result_of (upload_file sample_file (set_minio_client false sample_world))
  = Raised (HTTPException 500 "MinIO client not initialized") /\
  result_of (init_multipart_upload "report.pdf" None (set_minio_client false sample_world))
  = Raised (HTTPException 500 "MinIO client not initialized").
Proof.
  split; [reflexivity|].
  destruct (uploads_fail_without_client (set_minio_client false sample_world) eq_refl)
    as [Hfile Hinit].
  split.
  - exact (proj1 (Hfile sample_file)).
  - exact (proj1 (Hinit "report.pdf" None)).
Defined.

(** ** How requests are answered *)

Lemma cancel_upload_result upload_id w :
  result_of (cancel_upload upload_id w)
  = Returned (JObj [("upload_id", JStr upload_id); ("status", JStr "cancelled")]).
Proof. reflexivity. Qed.

Lemma get_upload_status_raises upload_id w :
  result_of (get_upload_status upload_id w)
  = Raised (HTTPException 500 (str_exn not_a_context_manager)).
Proof. reflexivity. Qed.




(** ** The object store under requests *)

Lemma serve_cons_snd r rest w :
  snd (serve (r :: rest) w) = snd (serve rest (snd (route r w))).
Proof.
  cbn [serve]. destruct (route r w) as [o w1]. cbn [snd].
  destruct (serve rest w1) as [os w2]. reflexivity.
Qed.

Lemma route_keeps_objects r w :
  (forall f, r <> POST_upload f) ->
  objects (world_of (route r w)) = objects w.
Proof.
  intros Hr. destruct r as [f|fn ct|id n f|id|id|id|l o]; cbn [route].
  - destruct (Hr f eq_refl).
  - apply (keeps_init_multipart_upload objects); reflexivity.
  - apply (keeps_upload_part objects); reflexivity.
  - apply (keeps_complete_multipart_upload objects); reflexivity.
  - apply (keeps_cancel_upload objects); reflexivity.
  - apply (keeps_get_upload_status objects); reflexivity.
  - apply (keeps_list_uploads objects); reflexivity.
Qed.

Lemma route_objects_grow r w k :
  is_Some (objects w !! k) -> is_Some (objects (world_of (route r w)) !! k).
Proof.
  intros Hk. destruct r as [f| | | | | | ].
  2-7: rewrite route_keeps_objects by discriminate; exact Hk.
  cbn [route]. destruct (minio_client w) eqn:Hclient.
  - rewrite (upload_file_objects f w Hclient).
    apply lookup_insert_is_Some'. right. exact Hk.
  - destruct (upload_file_no_client f w Hclient) as (_ & Hkeep & _).
    injection Hkeep as _ ->. exact Hk.
Qed.

(** X6: no sequence of requests removes an object: a key the object store
    holds before is held after.  And only the single-shot upload writes to
    the store: a sequence without POST /upload leaves it as it was; that
    includes DELETE /upload/{upload_id}. *)
Theorem object_store_only_grows (rs : list request) (w : world) :
  (forall k, is_Some (objects w !! k) -> is_Some (objects (snd (serve rs w)) !! k)) /\
  ((forall f, POST_upload f ∉ rs) -> objects (snd (serve rs w)) = objects w).
Proof.
  split.
  - revert w. induction rs as [|r rest IH]; intros w k Hk; [exact Hk|].
    rewrite serve_cons_snd. apply IH. apply (route_objects_grow r w k Hk).
  - revert w. induction rs as [|r rest IH]; intros w Hnone; [reflexivity|].
    rewrite serve_cons_snd. rewrite IH.
    + apply route_keeps_objects. intros f ->. apply (Hnone f). left.
    + intros f Hin. apply (Hnone f). right. exact Hin.
Qed.

Lemma object_store_only_grows_witness :
  is_Some (objects (snd (serve three_parts_then_abort
                           (world_of (upload_file sample_file sample_world))))
             !! ("document-uploads", "5c1f0a3e-7b2d-4e6a-9f10-0/report.pdf")) /\
  objects (snd (serve three_parts_then_abort
                  (world_of (upload_file sample_file sample_world))))
  = objects (world_of (upload_file sample_file sample_world)).
Proof.
  destruct (object_store_only_grows three_parts_then_abort
              (world_of (upload_file sample_file sample_world))) as [Hgrow Hsame].
  split.
  - apply Hgrow. eexists. reflexivity.
  - apply Hsame. intros f Hin. unfold three_parts_then_abort in Hin.
    repeat (apply elem_of_cons in Hin as [Hin|Hin]; [discriminate|]).
    apply elem_of_nil in Hin. exact Hin.
Defined.

(** X7: [cancel_upload] cancels nothing: for every upload id, known or
    not, and in every state, it answers "cancelled" and leaves the uploads
    table and the object store as they were: no object is deleted and no
    status is updated. *)
Theorem cancel_upload_deletes_nothing (upload_id : string) (w : world) :
  result_of (cancel_upload upload_id w)
  = Returned (JObj [("upload_id", JStr upload_id); ("status", JStr "cancelled")]) /\
  persisted (world_of (cancel_upload upload_id w)) = persisted w.
Proof.
  split; [apply cancel_upload_result|].
  apply (keeps_cancel_upload persisted persisted_set_log).
Qed.

(** ** Upload identifiers *)

(** Exactly the two upload entry points draw an identifier, one each, also
    when they fail. *)
Lemma route_uuid_drawn r w :
  uuid_drawn (world_of (route r w))
  = if draws_uuid r then S (uuid_drawn w) else uuid_drawn w.
Proof.
  destruct r as [f|fn ct|id n f|id|id|id|l o]; cbn [route draws_uuid];
    try reflexivity.
  - unfold upload_file, try_except, bind, uuid4, get_client, gets, world_of.
    cbn. destruct (minio_client w); reflexivity.
  - unfold init_multipart_upload, try_except, bind, uuid4, get_client, gets, world_of.
    cbn. destruct (minio_client w); reflexivity.
Qed.

Lemma route_uuid_source r w : uuid_source (world_of (route r w)) = uuid_source w.
Proof. apply (keeps_route uuid_source); reflexivity. Qed.

Lemma route_minio_client r w : minio_client (world_of (route r w)) = minio_client w.
Proof. apply (keeps_route minio_client); reflexivity. Qed.

Lemma route_settings r w : settings (world_of (route r w)) = settings w.
Proof. apply (keeps_route settings); reflexivity. Qed.

Lemma append_cons (c : Ascii.ascii) (a s : string) :
  String c a +:+ s = String c (a +:+ s).
Proof. reflexivity. Qed.

Lemma append_length (a s : string) :
  String.length (a +:+ s) = (String.length a + String.length s)%nat.
Proof.
  induction a as [|c a IH]; [reflexivity|].
  rewrite append_cons. cbn [String.length]. rewrite IH. reflexivity.
Qed.

Lemma append_cancel_r (s a b : string) : a +:+ s = b +:+ s -> a = b.
Proof.
  intros Heq.
  assert (Hlen : String.length a = String.length b).
  { apply (f_equal String.length) in Heq.
    rewrite !append_length in Heq. lia. }
  revert b Heq Hlen.
  induction a as [|c a IH]; intros [|d b] Heq Hlen; cbn [String.length] in Hlen;
    try discriminate; [reflexivity|].
  rewrite !append_cons in Heq. injection Heq as -> Heq.
  f_equal. apply IH; [exact Heq | lia].
Qed.

(** X8: a retried upload is stored a second time.  With the client set and
    two different identifiers drawn, uploading the same file twice fails
    twice and leaves two objects, under two different keys. *)
Theorem upload_file_retry_stores_again (file : UploadFile) (w : world) :
  minio_client w = true ->
  uuid_source w (uuid_drawn w) <> uuid_source w (S (uuid_drawn w)) ->
  succeeded (result_of (upload_file file w)) = false /\
  succeeded (result_of (upload_file file (world_of (upload_file file w)))) = false /\
  uuid_source w (uuid_drawn w) +:+ "/" +:+ file_filename file
  <> uuid_source w (S (uuid_drawn w)) +:+ "/" +:+ file_filename file /\
  is_Some (objects (world_of (upload_file file (world_of (upload_file file w))))
             !! (minio_bucket (settings w),
                 uuid_source w (uuid_drawn w) +:+ "/" +:+ file_filename file)) /\
  is_Some (objects (world_of (upload_file file (world_of (upload_file file w))))
             !! (minio_bucket (settings w),
                 uuid_source w (S (uuid_drawn w)) +:+ "/" +:+ file_filename file)).
Proof.
  intros Hclient Hfresh.
  pose proof (route_minio_client (POST_upload file) w) as Hclient1.
  pose proof (route_uuid_source (POST_upload file) w) as Hsource1.
  pose proof (route_settings (POST_upload file) w) as Hsettings1.
  pose proof (route_uuid_drawn (POST_upload file) w) as Hdrawn1.
  cbn [route draws_uuid] in *. rewrite Hclient in Hclient1.
  split; [rewrite (upload_file_result file w Hclient); reflexivity|].
  split; [rewrite (upload_file_result file _ Hclient1); reflexivity|].
  split; [intros Heq; apply Hfresh, (append_cancel_r _ _ _ Heq)|].
  rewrite (upload_file_objects file _ Hclient1), Hsource1, Hsettings1, Hdrawn1.
  rewrite (upload_file_objects file w Hclient).
  split.
  - apply lookup_insert_is_Some'. right. rewrite lookup_insert_eq. eauto.
  - rewrite lookup_insert_eq. eauto.
Qed.

Lemma upload_file_retry_stores_again_witness :
  minio_client sample_world = true /\
  uuid_source sample_world (uuid_drawn sample_world)
  <> uuid_source sample_world (S (uuid_drawn sample_world)) /\
  is_Some (objects (world_of (upload_file sample_file
                                (world_of (upload_file sample_file sample_world))))
             !! ("document-uploads", "5c1f0a3e-7b2d-4e6a-9f10-1/report.pdf")).
Proof.
  split; [reflexivity|]. split; [discriminate|].
  apply (upload_file_retry_stores_again sample_file sample_world);
    [reflexivity | discriminate].
Defined.

Lemma issued_id_drawn r w u :
  issued_id r (result_of (route r w)) = Some u ->
  draws_uuid r = true /\ u = uuid_source w (uuid_drawn w).
Proof.
  destruct r as [f|fn ct|id n f|id|id|id|l o]; cbn [issued_id route draws_uuid];
    try discriminate.
  destruct (minio_client w) eqn:Hclient.
  - rewrite (init_multipart_upload_result fn ct w Hclient).
    cbn. intros [= <-]. split; reflexivity.
  - rewrite (init_multipart_upload_no_client fn ct w Hclient). discriminate.
Qed.

Lemma issued_ids_cons r rest w :
  issued_ids (r :: rest) w
  = match issued_id r (result_of (route r w)) with
    | Some u => u :: issued_ids rest (world_of (route r w))
    | None => issued_ids rest (world_of (route r w))
    end.
Proof.
  unfold issued_ids. rewrite serve_cons. reflexivity.
Qed.

(** The identifiers handed out are among those drawn, in the order drawn. *)
Lemma issued_ids_sublist rs w :
  issued_ids rs w `sublist_of` (uuid_source w <$> seq (uuid_drawn w) (length rs)).
Proof.
  revert w. induction rs as [|r rest IH]; intros w.
  - apply sublist_nil_l.
  - rewrite issued_ids_cons. specialize (IH (world_of (route r w))).
    rewrite route_uuid_source, route_uuid_drawn in IH.
    destruct (issued_id r (result_of (route r w))) as [u|] eqn:Hissued.
    + destruct (issued_id_drawn r w u Hissued) as [Hdraws ->].
      rewrite Hdraws in IH. cbn [length seq fmap list_fmap].
      apply sublist_skip, IH.
    + destruct (draws_uuid r).
      * cbn [length seq fmap list_fmap]. apply sublist_cons, IH.
      * cbn [length]. rewrite seq_S, fmap_app. apply sublist_inserts_r, IH.
Qed.

(** X9: upload ids do not collide: over any sequence of requests, the
    upload ids that multipart inits hand out are pairwise different,
    provided the identifiers [uuid4] yields in that time are. *)
Theorem issued_ids_distinct (rs : list request) (w : world) :
  NoDup (uuid_source w <$> seq (uuid_drawn w) (length rs)) ->
  NoDup (issued_ids rs w).
Proof.
  intros Hfresh. apply (sublist_NoDup _ _ Hfresh (issued_ids_sublist rs w)).
Qed.

Lemma issued_ids_distinct_witness :
  NoDup (uuid_source sample_world
           <$> seq (uuid_drawn sample_world) (length (parts_1_2_4 ++ parts_1_2_4))) /\
  issued_ids (parts_1_2_4 ++ parts_1_2_4) sample_world
  = ["5c1f0a3e-7b2d-4e6a-9f10-0"; "5c1f0a3e-7b2d-4e6a-9f10-1"] /\
  NoDup (issued_ids (parts_1_2_4 ++ parts_1_2_4) sample_world).
Proof.
  assert (Hfresh : NoDup (uuid_source sample_world
             <$> seq (uuid_drawn sample_world) (length (parts_1_2_4 ++ parts_1_2_4)))).
  { apply (bool_decide_unpack _). vm_compute. exact I. }
  split; [exact Hfresh|]. split; [reflexivity|].
  apply (issued_ids_distinct (parts_1_2_4 ++ parts_1_2_4) sample_world Hfresh).
Defined.

(** ** Logging *)

(** X10: every request leaves its trace in the log, and the log tells
    success from failure: a handler only appends to the log; when it
    returns, it appended at least one entry and only INFO entries; when it
    raises, the last entry it appended is an ERROR entry. *)
Theorem every_request_is_logged (r : request) (w : world) :
  exists entries,
    log (world_of (route r w)) = (log w ++ entries)%list /\
    match result_of (route r w) with
    | Returned _ => entries <> [] /\ Forall (fun entry => fst entry = INFO) entries
    | Raised _ => exists msg, last entries = Some (ERROR, msg)
    end.
Proof.
  destruct r as [f|fn ct|id n f|id|id|id|l o]; cbn [route].
  - destruct (minio_client w) eqn:Hclient.
    + eexists. split; [apply (upload_file_log f w Hclient)|].
      rewrite (upload_file_result f w Hclient). eexists. reflexivity.
    + destruct (upload_file_no_client f w Hclient) as (Hres & _ & Hlog).
      eexists. split; [exact Hlog|]. rewrite Hres. eexists. reflexivity.
  - eexists. split; [apply init_multipart_upload_log|].
    destruct (minio_client w) eqn:Hclient.
    + rewrite (init_multipart_upload_result fn ct w Hclient).
      split; [discriminate | repeat constructor].
    + rewrite (init_multipart_upload_no_client fn ct w Hclient).
      eexists. reflexivity.
  - eexists. split; [reflexivity|]. rewrite upload_part_result.
    split; [discriminate | repeat constructor].
  - eexists. split; [reflexivity|]. rewrite complete_multipart_upload_result.
    split; [discriminate | repeat constructor].
  - eexists. split; [reflexivity|]. rewrite cancel_upload_result.
    split; [discriminate | repeat constructor].
  - eexists. split; [reflexivity|]. rewrite get_upload_status_raises.
    eexists. reflexivity.
  - eexists. split; [reflexivity|]. rewrite list_uploads_raises.
    eexists. reflexivity.
Qed.

(** ** Start-up and shut-down *)

Lemma init_db_world w :
  init_db w
  = (Returned tt,
     set_log (log w ++ [(INFO, "Database pool created successfully");
                        (INFO, "Database connection test successful")])%list
       (set_pool true w)).
Proof.
  unfold init_db, try_except, bind, modify, logger_info, async_with,
    conn_fetchval_SELECT_1, ret, set_log, set_pool.
  cbn. rewrite <- app_assoc. reflexivity.
Qed.

(** X11: [init_db] succeeds and its own connection test runs, since it
    gives [async with] the pool's [acquire()]; the pool is then set and the
    body of [get_conn] would return the acquire context.  All the same,
    right after it each of [execute_query], [execute_one] and
    [execute_command] raises, for every statement, without touching the
    state: they give [async with] the un-awaited [get_conn()]. *)
Theorem database_helpers_fail_after_init_db
    (query : sql) (args : list sqlarg) (w : world) :
  result_of (init_db w) = Returned tt /\
  log (world_of (init_db w))
  = (log w ++ [(INFO, "Database pool created successfully");
               (INFO, "Database connection test successful")])%list /\
  pool (world_of (init_db w)) = true /\
  result_of (get_conn_body (world_of (init_db w))) = Returned PoolAcquireContext /\
  execute_query query args (world_of (init_db w))
  = (Raised not_a_context_manager, world_of (init_db w)) /\
  execute_one query args (world_of (init_db w))
  = (Raised not_a_context_manager, world_of (init_db w)) /\
  execute_command query args (world_of (init_db w))
  = (Raised not_a_context_manager, world_of (init_db w)).
Proof.
  rewrite init_db_world. repeat split.
Qed.

Lemma init_minio_result buckets w :
  result_of (init_minio buckets w)
  = Returned (if decide (minio_bucket (settings w) ∈ buckets)
              then buckets else {[minio_bucket (settings w)]} ∪ buckets).
Proof.
  unfold init_minio, try_except, bind, modify, gets, logger_info, result_of.
  cbn. destruct (decide (minio_bucket (settings w) ∈ buckets)); reflexivity.
Qed.

Lemma init_minio_frame buckets w :
  minio_client (world_of (init_minio buckets w)) = true /\
  settings (world_of (init_minio buckets w)) = settings w /\
  pool (world_of (init_minio buckets w)) = pool w /\
  uuid_source (world_of (init_minio buckets w)) = uuid_source w /\
  uuid_drawn (world_of (init_minio buckets w)) = uuid_drawn w /\
  persisted (world_of (init_minio buckets w)) = persisted w.
Proof.
  unfold init_minio, try_except, bind, modify, gets, logger_info, world_of.
  cbn. destruct (decide (minio_bucket (settings w) ∈ buckets)); repeat split.
Qed.

(** X12: [init_minio] makes the configured bucket exist and creates it
    only when it is missing: afterwards the bucket is there, every bucket
    that was there still is, nothing else was added, and the client is
    set; a second [init_minio] adds nothing. *)
Theorem init_minio_creates_bucket_once (buckets : gset string) (w : world) :
  exists buckets',
    result_of (init_minio buckets w) = Returned buckets' /\
    minio_bucket (settings w) ∈ buckets' /\
    buckets ⊆ buckets' /\
    buckets' ⊆ {[minio_bucket (settings w)]} ∪ buckets /\
    minio_client (world_of (init_minio buckets w)) = true /\
    result_of (init_minio buckets' (world_of (init_minio buckets w)))
    = Returned buckets'.
Proof.
  destruct (init_minio_frame buckets w) as (Hclient & Hsettings & _).
  eexists. split; [apply init_minio_result|].
  rewrite init_minio_result, Hsettings.
  destruct (decide (minio_bucket (settings w) ∈ buckets)) as [Hin|Hnotin].
  - rewrite decide_True by exact Hin.
    split_and!; [exact Hin | set_solver | set_solver | exact Hclient | reflexivity].
  - rewrite decide_True by set_solver.
    split_and!; [set_solver | set_solver | set_solver | exact Hclient | reflexivity].
Qed.

Lemma lifespan_startup_frame buckets w :
  succeeded (result_of (lifespan_startup buckets w)) = true /\
  minio_client (world_of (lifespan_startup buckets w)) = true /\
  pool (world_of (lifespan_startup buckets w)) = true /\
  uuid_source (world_of (lifespan_startup buckets w)) = uuid_source w /\
  uuid_drawn (world_of (lifespan_startup buckets w)) = uuid_drawn w /\
  persisted (world_of (lifespan_startup buckets w)) = persisted w.
Proof.
  unfold lifespan_startup, bind, logger_info, modify, result_of, world_of.
  cbn beta iota. rewrite init_db_world.
  unfold init_minio, try_except, bind, modify, gets, logger_info.
  cbn. destruct (decide (_ ∈ buckets)); repeat split.
Qed.

(** Shut-down writes to the log and nowhere else; [close_db] does not
    reset the pool. *)
Lemma lifespan_shutdown_keeps {X} (view : world -> X) :
  (forall l w, view (set_log l w) = view w) -> keeps view lifespan_shutdown.
Proof.
  intros Hlog.
  apply keeps_bind; [apply (keeps_logger_info view Hlog) | intros _].
  apply keeps_bind; [apply keeps_gets|].
  intros []; [apply (keeps_logger_info view Hlog) | apply keeps_ret].
Qed.

(** X13: start-up is what makes the multipart init work.  From any state,
    [lifespan] up to its [yield] succeeds, sets the database pool and the
    object-store client and leaves the table and the object store as they
    were; after it [init_multipart_upload] succeeds for every filename,
    with the next identifier and the key [upload_id/filename].
    Shut-down then leaves the pool and the client set. *)
Theorem startup_enables_multipart_init
    (buckets : gset string) (filename : string) (content_type : option string)
    (w : world) :
  succeeded (result_of (lifespan_startup buckets w)) = true /\
  pool (world_of (lifespan_startup buckets w)) = true /\
  minio_client (world_of (lifespan_startup buckets w)) = true /\
  persisted (world_of (lifespan_startup buckets w)) = persisted w /\
  result_of (init_multipart_upload filename content_type
               (world_of (lifespan_startup buckets w)))
  = Returned (JObj [("upload_id", JStr (uuid_source w (uuid_drawn w)));
                    ("filename", JStr filename);
                    ("object_name",
                     JStr (uuid_source w (uuid_drawn w) +:+ "/" +:+ filename));
                    ("message", JStr "Multipart upload initialized. Upload parts using /upload/multipart/part endpoint.")]) /\
  pool (world_of (lifespan_shutdown (world_of (lifespan_startup buckets w)))) = true /\
  minio_client (world_of (lifespan_shutdown (world_of (lifespan_startup buckets w))))
  = true.
Proof.
  destruct (lifespan_startup_frame buckets w)
    as (Hok & Hclient & Hpool & Hsource & Hdrawn & Hkeep).
  split; [exact Hok|]. split; [exact Hpool|]. split; [exact Hclient|].
  split; [exact Hkeep|]. split.
  - rewrite (init_multipart_upload_result _ _ _ Hclient), Hsource, Hdrawn.
    reflexivity.
  - split.
    + etransitivity; [apply (lifespan_shutdown_keeps pool); reflexivity | exact Hpool].
    + etransitivity; [apply (lifespan_shutdown_keeps minio_client); reflexivity
                     | exact Hclient].
Qed.

(** ** The workflow *)

(** X14: the workflow runs its four stages once each, in the order
    extract, chunk, embed, store, and stores nothing: when it has reported
    "completed", the log has one line per stage and the uploads table and
    the object store are as they were. *)
Theorem workflow_stores_nothing (document_id : string) (w : world) :
  log (world_of (DocumentProcessingWorkflow.run document_id w))
  = (log w ++ [(INFO, "Extracting text from document: " +:+ document_id);
               (INFO, "Chunking document (26 chars)");
               (INFO, "Generating embeddings for 3 chunks");
               (INFO, "Storing 3 chunks with embeddings")])%list /\
  persisted (world_of (DocumentProcessingWorkflow.run document_id w)) = persisted w.
Proof.
  split; [|reflexivity].
  unfold DocumentProcessingWorkflow.run, execute_activity, extract_text,
    chunk_document, generate_embeddings, store_embeddings, bind, logger_info,
    modify, ret, world_of.
  cbn [fst snd log set_log]. rewrite <- !app_assoc. reflexivity.
Qed.

(** ** Secrets *)

Lemma rstrip_blank s : blank s = true -> rstrip s = "".
Proof.
  induction s as [|c rest IH]; cbn [blank rstrip]; [reflexivity|].
  intros [Hc Hrest]%andb_prop. rewrite (IH Hrest), Hc. reflexivity.
Qed.

Lemma rstrip_not_blank s : blank s = false -> blank (rstrip s) = false.
Proof.
  induction s as [|c rest IH]; cbn [blank rstrip]; [discriminate|].
  intros Hblank. destruct (blank rest) eqn:Hrest.
  - rewrite (rstrip_blank rest Hrest).
    rewrite andb_true_r in Hblank. rewrite Hblank. cbn [blank].
    rewrite Hblank. reflexivity.
  - specialize (IH eq_refl). destruct (rstrip rest) as [|d kept]; [discriminate|].
    change (blank (String c (String d kept)))
      with (isspace c && blank (String d kept)).
    rewrite IH. apply andb_false_r.
Qed.

Lemma lstrip_not_blank s : blank s = false -> lstrip s <> "".
Proof.
  induction s as [|c rest IH]; cbn [blank lstrip]; [discriminate|].
  destruct (isspace c); [exact IH | discriminate].
Qed.

Lemma strip_blank s : blank s = true -> strip s = "".
Proof. intros Hblank. unfold strip. rewrite (rstrip_blank s Hblank). reflexivity. Qed.

Lemma strip_not_blank s : blank s = false -> strip s <> "".
Proof. intros Hblank. apply lstrip_not_blank, rstrip_not_blank, Hblank. Qed.

(** The value [read_secret(name) or env]: the stripped secret when the file
    exists and holds more than whitespace, else the environment's value. *)
Lemma secret_or_env files name env :
  py_or (read_secret files name) env
  = match files !! ("/run/secrets/" +:+ name) with
    | Some text => if blank text then env else Some (strip text)
    | None => env
    end.
Proof.
  unfold read_secret. destruct (files !! _) as [text|]; [|reflexivity].
  destruct (blank text) eqn:Hblank.
  - rewrite (strip_blank text Hblank). reflexivity.
  - pose proof (strip_not_blank text Hblank) as Hne.
    destruct (strip text); [contradiction | reflexivity].
Qed.

(** X15: a Docker secret overrides the environment only when it has
    content.  Each credential of the settings is the stripped text of its
    secret file if that file exists and holds a character that is not
    whitespace; if the file is absent, empty or all whitespace, the value
    from the environment stays. *)
Theorem secrets_override_unless_blank
    (files : gmap string string) (env : Credentials) :
  minio_access_key (override_with_secrets files env)
  = match files !! "/run/secrets/minio_access_key" with
    | Some text => if blank text then minio_access_key env else Some (strip text)
    | None => minio_access_key env
    end /\
  minio_secret_key (override_with_secrets files env)
  = match files !! "/run/secrets/minio_secret_key" with
    | Some text => if blank text then minio_secret_key env else Some (strip text)
    | None => minio_secret_key env
    end /\
  openai_api_key (override_with_secrets files env)
  = match files !! "/run/secrets/openai_api_key" with
    | Some text => if blank text then openai_api_key env else Some (strip text)
    | None => openai_api_key env
    end.
Proof.
  unfold override_with_secrets. cbn [minio_access_key minio_secret_key openai_api_key].
  rewrite !secret_or_env. repeat split.
Qed.
